(** * asmdec: x86/x64 register-width emulation (src/asmdec/asmdec.py)

    A shallow embedding of class [AsmDec].  Python integers are [Z]
    (unbounded, two's-complement bit operations: [&] is [Z.land], [|] is
    [Z.lor], [^] is [Z.lxor], [~] is [Z.lnot], [>>] is [Z.shiftr] and [<<]
    is [Z.shiftl]).  A value that may be [None] is an [option Z].  Python
    exceptions are the [Raise] branch of the small result monad [res].
    Width specifiers are Python strings, indexed with [size[i]].
    Operands are Python ints; the Python 2 [str] conversion branch of
    [_get_size] is outside this development. *)

From Stdlib Require Import ZArith Lia String Ascii Bool.

Open Scope Z_scope.

(** ** Python runtime fragment *)

Inductive exn := TypeError | ValueError | IndexError.

Inductive res (A : Type) : Type :=
| Ok (x : A)
| Raise (e : exn).
Arguments Ok {A} x.
Arguments Raise {A} e.

Definition bind {A B} (m : res A) (k : A -> res B) : res B :=
  match m with
  | Ok x => k x
  | Raise e => Raise e
  end.

Notation "x <- m ;; k" := (bind m (fun x => k))
  (at level 61, m at next level, right associativity).
Notation "' p <- m ;; k" := (bind m (fun x => match x with p => k end))
  (at level 61, p pattern, m at next level, right associativity).

(** An int-or-None Python object. *)
Definition pyobj := option Z.

(** [s[i]] on a str: IndexError out of range. *)
Definition str_at (s : string) (i : nat) : res ascii :=
  match String.get i s with
  | Some c => Ok c
  | None => Raise IndexError
  end.

(** Binary int operators; a [None] operand raises TypeError. *)
Definition py_binop (f : Z -> Z -> Z) (a b : pyobj) : res Z :=
  match a, b with
  | Some x, Some y => Ok (f x y)
  | _, _ => Raise TypeError
  end.

Definition py_xor := py_binop Z.lxor.
Definition py_or := py_binop Z.lor.
Definition py_and := py_binop Z.land.
Definition py_add := py_binop Z.add.
Definition py_sub := py_binop Z.sub.

(** [x << n] and [x >> n]: a negative count raises ValueError. *)
Definition py_shift (f : Z -> Z -> Z) (a b : pyobj) : res Z :=
  match a, b with
  | Some x, Some n => if n <? 0 then Raise ValueError else Ok (f x n)
  | _, _ => Raise TypeError
  end.

Definition py_lshift := py_shift Z.shiftl.
Definition py_rshift := py_shift Z.shiftr.

(** [~x]. *)
Definition py_invert (a : pyobj) : res Z :=
  match a with
  | Some x => Ok (Z.lnot x)
  | None => Raise TypeError
  end.

(** ** class AsmDec *)

(** [_get_size]: the width resolver.  The if-chain has no final branch,
    so an unknown size falls off the end and returns [None]. *)
Definition _get_size (value : Z) (size : ascii) : pyobj :=
  if Ascii.eqb size "l" then Some (Z.land value 0xFF)
  else if Ascii.eqb size "h" then Some (Z.shiftr (Z.land value 0xFF00) 8)
  else if Ascii.eqb size "w" then Some (Z.land value 0xFFFF)
  else if Ascii.eqb size "d" then Some (Z.land value 0xFFFFFFFF)
  else if Ascii.eqb size "q" then Some (Z.land value 0xFFFFFFFFFFFFFFFF)
  else None.

Definition _parse1 (op1 : Z) (size : string) : res pyobj :=
  size_op1 <- str_at size 0 ;;
  Ok (_get_size op1 size_op1).

Definition _parse2 (op1 op2 : Z) (size : string) : res (pyobj * pyobj) :=
  size_op1 <- str_at size 0 ;;
  size_op2 <- str_at size 1 ;;
  Ok (_get_size op1 size_op1, _get_size op2 size_op2).

Definition FORMAT (op1 : Z) (size : string) : res pyobj :=
  size_op1 <- str_at size 0 ;;
  Ok (_get_size op1 size_op1).

Definition HIGHBYTE (value : Z) : Z := Z.shiftl value 8.

(** The default specifier of every operation. *)
Definition default_size : string := "dd".

Definition XOR (op1 op2 : Z) (size : string) : res pyobj :=
  '(a, b) <- _parse2 op1 op2 size ;;
  t <- py_xor a b ;;
  s0 <- str_at size 0 ;;
  Ok (_get_size t s0).

Definition OR (op1 op2 : Z) (size : string) : res pyobj :=
  '(a, b) <- _parse2 op1 op2 size ;;
  t <- py_or a b ;;
  s0 <- str_at size 0 ;;
  Ok (_get_size t s0).

Definition AND (op1 op2 : Z) (size : string) : res pyobj :=
  '(a, b) <- _parse2 op1 op2 size ;;
  t <- py_and a b ;;
  s0 <- str_at size 0 ;;
  Ok (_get_size t s0).

(** [temp = (op1 << op2 | op1 >> (8 - op2)) & 0xFF], evaluated left to right. *)
Definition ROL (op1 op2 : Z) (size : string) : res pyobj :=
  '(a, b) <- _parse2 op1 op2 size ;;
  l <- py_lshift a b ;;
  k <- py_sub (Some 8) b ;;
  r <- py_rshift a (Some k) ;;
  o <- py_or (Some l) (Some r) ;;
  temp <- py_and (Some o) (Some 0xFF) ;;
  s0 <- str_at size 0 ;;
  Ok (_get_size temp s0).

(** [temp = (op1 >> op2 | op1 << (8- op2)) & 0xFF]. *)
Definition ROR (op1 op2 : Z) (size : string) : res pyobj :=
  '(a, b) <- _parse2 op1 op2 size ;;
  r <- py_rshift a b ;;
  k <- py_sub (Some 8) b ;;
  l <- py_lshift a (Some k) ;;
  o <- py_or (Some r) (Some l) ;;
  temp <- py_and (Some o) (Some 0xFF) ;;
  s0 <- str_at size 0 ;;
  Ok (_get_size temp s0).

Definition SHR (op1 op2 : Z) (size : string) : res pyobj :=
  '(a, b) <- _parse2 op1 op2 size ;;
  t <- py_rshift a b ;;
  s0 <- str_at size 0 ;;
  Ok (_get_size t s0).

Definition SHL (op1 op2 : Z) (size : string) : res pyobj :=
  '(a, b) <- _parse2 op1 op2 size ;;
  t <- py_lshift a b ;;
  s0 <- str_at size 0 ;;
  Ok (_get_size t s0).

Definition INC (op1 : Z) (size : string) : res pyobj :=
  p <- _parse1 op1 size ;;
  t <- py_add p (Some 1) ;;
  s0 <- str_at size 0 ;;
  Ok (_get_size t s0).

Definition DEC (op1 : Z) (size : string) : res pyobj :=
  p <- _parse1 op1 size ;;
  t <- py_sub p (Some 1) ;;
  s0 <- str_at size 0 ;;
  Ok (_get_size t s0).

(** [~op1 + 1]. *)
Definition NEG (op1 : Z) (size : string) : res pyobj :=
  p <- _parse1 op1 size ;;
  n <- py_invert p ;;
  t <- py_add (Some n) (Some 1) ;;
  s0 <- str_at size 0 ;;
  Ok (_get_size t s0).

Definition NOT (op1 : Z) (size : string) : res pyobj :=
  p <- _parse1 op1 size ;;
  t <- py_invert p ;;
  s0 <- str_at size 0 ;;
  Ok (_get_size t s0).

Definition ADD (op1 op2 : Z) (size : string) : res pyobj :=
  '(a, b) <- _parse2 op1 op2 size ;;
  t <- py_add a b ;;
  s0 <- str_at size 0 ;;
  Ok (_get_size t s0).

Definition SUB (op1 op2 : Z) (size : string) : res pyobj :=
  '(a, b) <- _parse2 op1 op2 size ;;
  t <- py_sub a b ;;
  s0 <- str_at size 0 ;;
  Ok (_get_size t s0).

(** ** The operation catalogue, as one dispatch (unary ones ignore [op2]) *)

Inductive operation :=
| OpXOR | OpOR | OpAND | OpROL | OpROR | OpSHR | OpSHL
| OpINC | OpDEC | OpNEG | OpNOT | OpADD | OpSUB.

Definition run_op (o : operation) (op1 op2 : Z) (size : string) : res pyobj :=
  match o with
  | OpXOR => XOR op1 op2 size
  | OpOR => OR op1 op2 size
  | OpAND => AND op1 op2 size
  | OpROL => ROL op1 op2 size
  | OpROR => ROR op1 op2 size
  | OpSHR => SHR op1 op2 size
  | OpSHL => SHL op1 op2 size
  | OpINC => INC op1 size
  | OpDEC => DEC op1 size
  | OpNEG => NEG op1 size
  | OpNOT => NOT op1 size
  | OpADD => ADD op1 op2 size
  | OpSUB => SUB op1 op2 size
  end.

Definition is_binary (o : operation) : bool :=
  match o with
  | OpINC | OpDEC | OpNEG | OpNOT => false
  | _ => true
  end.

(** Bit width of the register class named by a recognized tag. *)
Definition tag_bits (t : ascii) : option Z :=
  if Ascii.eqb t "l" then Some 8
  else if Ascii.eqb t "h" then Some 8
  else if Ascii.eqb t "w" then Some 16
  else if Ascii.eqb t "d" then Some 32
  else if Ascii.eqb t "q" then Some 64
  else None.

(** Bit mask of a recognized tag, as written in [_get_size]. *)
Definition tag_mask (t : ascii) : Z :=
  if Ascii.eqb t "l" then 0xFF
  else if Ascii.eqb t "w" then 0xFFFF
  else if Ascii.eqb t "d" then 0xFFFFFFFF
  else 0xFFFFFFFFFFFFFFFF.

(** Checker: rotating the byte [x] by [n] with specifier ["ll"] one way
    and then the other gives [x] back. *)
Definition rotate_inverse_at (x n : Z) : bool :=
  match ROL x n "ll", ROR x n "ll" with
  | Ok (Some l), Ok (Some r) =>
      match ROR l n "ll", ROL r n "ll" with
      | Ok (Some x1), Ok (Some x2) => (x1 =? x) && (x2 =? x)
      | _, _ => false
      end
  | _, _ => false
  end.

(** [f] holds on [0 .. k-1]. *)
Definition all_below (k : nat) (f : Z -> bool) : bool :=
  List.forallb f (List.map Z.of_nat (List.seq 0 k)).

(** ** Concrete scenarios from the module docstring *)

Example format_high : FORMAT 0xAABBCCDD "h" = Ok (Some 0xCC).
Proof. reflexivity. Qed.

Example highbyte_22 : HIGHBYTE 0x22 = 0x2200.
Proof. reflexivity. Qed.

Example add_highbyte : ADD 0xAABBCCDD (HIGHBYTE 0x22) default_size = Ok (Some 0xAABBEEDD).
Proof. reflexivity. Qed.

Example dec_wrap : DEC 0 "ll" = Ok (Some 0xFF).
Proof. reflexivity. Qed.

Example neg_one : NEG 1 default_size = Ok (Some 0xFFFFFFFF).
Proof. reflexivity. Qed.

Example xor_low : XOR 0xFF 0x0F "ll" = Ok (Some 0xF0).
Proof. reflexivity. Qed.

Example and_add : AND 8 3 default_size = Ok (Some 0) /\ ADD 5 3 default_size = Ok (Some 8).
Proof. split; reflexivity. Qed.

(** ** Helper lemmas on the width resolver *)

Lemma get_size_low (v : Z) : _get_size v "l" = Some (v mod 2^8).
Proof.
  unfold _get_size; simpl; f_equal.
  change 0xFF with (Z.ones 8); apply Z.land_ones; lia.
Qed.

Lemma get_size_high (v : Z) : _get_size v "h" = Some ((v / 2^8) mod 2^8).
Proof.
  unfold _get_size; simpl; f_equal.
  rewrite Z.shiftr_land.
  change (Z.shiftr 0xFF00 8) with (Z.ones 8).
  rewrite Z.land_ones, Z.shiftr_div_pow2; lia.
Qed.

Lemma get_size_word (v : Z) : _get_size v "w" = Some (v mod 2^16).
Proof.
  unfold _get_size; simpl; f_equal.
  change 0xFFFF with (Z.ones 16); apply Z.land_ones; lia.
Qed.

Lemma get_size_dword (v : Z) : _get_size v "d" = Some (v mod 2^32).
Proof.
  unfold _get_size; simpl; f_equal.
  change 0xFFFFFFFF with (Z.ones 32); apply Z.land_ones; lia.
Qed.

Lemma get_size_qword (v : Z) : _get_size v "q" = Some (v mod 2^64).
Proof.
  unfold _get_size; simpl; f_equal.
  change 0xFFFFFFFFFFFFFFFF with (Z.ones 64); apply Z.land_ones; lia.
Qed.

(** The four tags that mask without shifting. *)
Definition plain_tag (t : ascii) : Prop :=
  t = "l"%char \/ t = "w"%char \/ t = "d"%char \/ t = "q"%char.

Lemma get_size_plain (v : Z) (t : ascii) :
  plain_tag t -> exists n, tag_bits t = Some n /\ _get_size v t = Some (v mod 2^n).
Proof.
  intros [-> | [-> | [-> | ->]]]; eexists; split; try reflexivity.
  - apply get_size_low.
  - apply get_size_word.
  - apply get_size_dword.
  - apply get_size_qword.
Qed.

Lemma tag_bits_none (v : Z) (t : ascii) : tag_bits t = None -> _get_size v t = None.
Proof.
  unfold tag_bits, _get_size.
  destruct (Ascii.eqb t "l"), (Ascii.eqb t "h"), (Ascii.eqb t "w"),
    (Ascii.eqb t "d"), (Ascii.eqb t "q"); congruence.
Qed.

Lemma get_size_range (v r n : Z) (t : ascii) :
  tag_bits t = Some n -> _get_size v t = Some r -> 0 <= r < 2^n.
Proof.
  intros Hb Hg.
  assert (Hcase : t = "h"%char \/ plain_tag t).
  { unfold tag_bits in Hb.
    destruct (Ascii.eqb_spec t "l"); [right; left; assumption|].
    destruct (Ascii.eqb_spec t "h"); [left; assumption|].
    destruct (Ascii.eqb_spec t "w"); [right; right; left; assumption|].
    destruct (Ascii.eqb_spec t "d"); [right; right; right; left; assumption|].
    destruct (Ascii.eqb_spec t "q"); [right; right; right; right; assumption|].
    discriminate. }
  destruct Hcase as [-> | Hp].
  - rewrite get_size_high in Hg; simpl in Hb.
    injection Hb as <-; injection Hg as <-.
    apply Z.mod_pos_bound; lia.
  - destruct (get_size_plain v t Hp) as (n' & Hb' & Hg').
    rewrite Hb in Hb'; injection Hb' as Hn.
    rewrite Hg in Hg'; injection Hg' as Hr; subst.
    assert (0 < 2^n').
    { destruct Hp as [-> | [-> | [-> | ->]]]; simpl in Hb; injection Hb as <-; lia. }
    apply Z.mod_pos_bound; assumption.
Qed.

Lemma get_size_nonneg (v r : Z) (t : ascii) : _get_size v t = Some r -> 0 <= r.
Proof.
  intros Hg.
  destruct (tag_bits t) as [n|] eqn:Hb.
  - exact (proj1 (get_size_range v r n t Hb Hg)).
  - rewrite (tag_bits_none v t Hb) in Hg; discriminate.
Qed.

(** ** Claims *)

(** C1: on every tag of the docstring the width resolver masks the value:
    [l] gives [v & 0xFF], [h] gives [(v & 0xFF00) >> 8], [w] gives
    [v & 0xFFFF], [d] gives [v & 0xFFFFFFFF] and [q] gives
    [v & 0xFFFFFFFFFFFFFFFF]; [FORMAT] is [_get_size] on [size[0]]. *)
Theorem get_size_tags (v : Z) :
  _get_size v "l" = Some (Z.land v 0xFF) /\
  _get_size v "h" = Some (Z.shiftr (Z.land v 0xFF00) 8) /\
  _get_size v "w" = Some (Z.land v 0xFFFF) /\
  _get_size v "d" = Some (Z.land v 0xFFFFFFFF) /\
  _get_size v "q" = Some (Z.land v 0xFFFFFFFFFFFFFFFF) /\
  (forall (t : ascii) (rest : string), FORMAT v (String t rest) = Ok (_get_size v t)).
Proof.
  repeat split; reflexivity.
Qed.

(** C2: with recognized tags [t1] and [t2], each binary operation XOR,
    OR, AND, ADD, SUB, SHR and SHL resolves operand 1 with [t1] and
    operand 2 with [t2], applies the plain operator, and truncates the
    result with [t1] alone. *)
Theorem binop_protocol (a b x y : Z) (t1 t2 : ascii) (rest : string) :
  _get_size a t1 = Some x ->
  _get_size b t2 = Some y ->
  XOR a b (String t1 (String t2 rest)) = Ok (_get_size (Z.lxor x y) t1) /\
  OR a b (String t1 (String t2 rest)) = Ok (_get_size (Z.lor x y) t1) /\
  AND a b (String t1 (String t2 rest)) = Ok (_get_size (Z.land x y) t1) /\
  ADD a b (String t1 (String t2 rest)) = Ok (_get_size (x + y) t1) /\
  SUB a b (String t1 (String t2 rest)) = Ok (_get_size (x - y) t1) /\
  SHR a b (String t1 (String t2 rest)) = Ok (_get_size (Z.shiftr x y) t1) /\
  SHL a b (String t1 (String t2 rest)) = Ok (_get_size (Z.shiftl x y) t1).
Proof.
  intros Ha Hb.
  pose proof (get_size_nonneg b y t2 Hb) as Hy.
  assert (Hy' : (y <? 0) = false) by (apply Z.ltb_ge; lia).
  unfold XOR, OR, AND, ADD, SUB, SHR, SHL, _parse2; cbn [str_at String.get bind].
  rewrite Ha, Hb; cbn.
  rewrite Hy'.
  repeat split.
Qed.

Lemma binop_protocol_witness :
  _get_size 0x1234 "d" = Some 0x1234 /\ _get_size 0x1FF "l" = Some 0xFF /\
  XOR 0x1234 0x1FF "dl" = Ok (_get_size (Z.lxor 0x1234 0xFF) "d").
Proof.
  split; [reflexivity|]. split; [reflexivity|].
  exact (proj1 (binop_protocol 0x1234 0x1FF 0x1234 0xFF "d" "l" "" eq_refl eq_refl)).
Defined.

(** C3 (counterexample): an unknown tag does not pass the unmasked sum
    through: [ADD(1, 2, "xx")] raises TypeError, since both operands
    resolve to [None]. *)
Lemma unknown_tag_add_raises : ADD 1 2 "xx" = Raise TypeError /\ ADD 1 2 "xx" <> Ok (Some 3).
Proof.
  split; [reflexivity | discriminate].
Qed.

(** C3 (amended): an unrecognized tag makes the resolver return [None].
    [FORMAT] then returns [None]; a binary operation raises TypeError when
    either of its two tags is unrecognized, and a unary operation raises
    TypeError when its first tag is unrecognized. *)
Theorem unknown_tag_behaviour (o : operation) (a b : Z) (t1 t2 : ascii) (rest : string) :
  (tag_bits t1 = None -> FORMAT a (String t1 rest) = Ok None) /\
  (is_binary o = true -> (tag_bits t1 = None \/ tag_bits t2 = None) ->
     run_op o a b (String t1 (String t2 rest)) = Raise TypeError) /\
  (is_binary o = false -> tag_bits t1 = None ->
     run_op o a b (String t1 rest) = Raise TypeError).
Proof.
  split; [|split].
  - intros H1. unfold FORMAT; cbn. rewrite (tag_bits_none a t1 H1). reflexivity.
  - intros Hbin Hnone.
    assert (Hpair : _get_size a t1 = None \/ _get_size b t2 = None).
    { destruct Hnone as [H | H]; [left | right]; apply tag_bits_none; exact H. }
    destruct o; try discriminate; cbn [run_op];
      unfold XOR, OR, AND, ROL, ROR, SHR, SHL, ADD, SUB, _parse2;
      cbn [str_at String.get bind];
      destruct Hpair as [H | H]; rewrite H;
      [ | destruct (_get_size a t1) | | destruct (_get_size a t1) | | destruct (_get_size a t1)
        | | destruct (_get_size a t1) | | destruct (_get_size a t1) | | destruct (_get_size a t1)
        | | destruct (_get_size a t1) | | destruct (_get_size a t1) | | destruct (_get_size a t1) ];
      reflexivity.
  - intros Hun H1.
    destruct o; try discriminate; cbn [run_op];
      unfold INC, DEC, NEG, NOT, _parse1; cbn [str_at String.get bind];
      rewrite (tag_bits_none a t1 H1); reflexivity.
Qed.

Lemma unknown_tag_behaviour_witness :
  tag_bits "x" = None /\ FORMAT 300 "x" = Ok None /\
  run_op OpADD 1 2 "dx" = Raise TypeError /\ run_op OpINC 1 0 "x" = Raise TypeError.
Proof.
  split; [reflexivity|].
  split; [exact (proj1 (unknown_tag_behaviour OpADD 300 0 "x" "x" "") eq_refl)|].
  split.
  - exact (proj1 (proj2 (unknown_tag_behaviour OpADD 1 2 "d" "x" "")) eq_refl (or_intror eq_refl)).
  - exact (proj2 (proj2 (unknown_tag_behaviour OpINC 1 0 "x" "x" "")) eq_refl eq_refl).
Defined.

(** C4 (counterexample): the [h] tag is not [v mod 2^8]:
    [resolve(0x1234, 'h')] is [0x12], while [0x1234 mod 2^8] is [0x34]. *)
Lemma high_tag_not_mod : _get_size 0x1234 "h" = Some 0x12 /\ _get_size 0x1234 "h" <> Some (0x1234 mod 2^8).
Proof.
  split; [reflexivity | discriminate].
Qed.

(** C4 (amended): for every integer [v], [resolve(v, t) = v mod 2^bits(t)]
    for the tags [l], [w], [d], [q] (8, 16, 32 and 64 bits), while
    [resolve(v, 'h') = (v div 2^8) mod 2^8], the byte of bits 8-15. *)
Theorem get_size_mod (v : Z) :
  _get_size v "l" = Some (v mod 2^8) /\
  _get_size v "h" = Some ((v / 2^8) mod 2^8) /\
  _get_size v "w" = Some (v mod 2^16) /\
  _get_size v "d" = Some (v mod 2^32) /\
  _get_size v "q" = Some (v mod 2^64).
Proof.
  split; [apply get_size_low|]. split; [apply get_size_high|].
  split; [apply get_size_word|]. split; [apply get_size_dword | apply get_size_qword].
Qed.

(** C5 (counterexample): resolving with [h] twice is not resolving once:
    [resolve(0x1234, 'h') = 0x12] but [resolve(0x12, 'h') = 0]. *)
Lemma high_tag_not_idempotent : _get_size 0x1234 "h" = Some 0x12 /\ _get_size 0x12 "h" = Some 0.
Proof.
  split; reflexivity.
Qed.

(** C5 (amended): resolution is idempotent for [l], [w], [d] and [q];
    resolving an [h]-resolved value again with [h] gives 0. *)
Theorem get_size_idempotent (v r : Z) (t : ascii) :
  (plain_tag t -> _get_size v t = Some r -> _get_size r t = Some r) /\
  (_get_size v "h" = Some r -> _get_size r "h" = Some 0).
Proof.
  split.
  - intros Hp Hg.
    destruct (get_size_plain v t Hp) as (n & Hb & Hv).
    destruct (get_size_plain r t Hp) as (n' & Hb' & Hr).
    rewrite Hb in Hb'; injection Hb' as <-.
    rewrite Hg in Hv; injection Hv as ->.
    rewrite Hr, Z.mod_mod; [reflexivity|].
    apply Z.pow_nonzero; [lia|].
    destruct Hp as [-> | [-> | [-> | ->]]]; simpl in Hb; injection Hb as <-; lia.
  - intros Hg.
    pose proof (get_size_range v r 8 "h" eq_refl Hg) as Hrange.
    rewrite get_size_high; f_equal.
    rewrite Z.div_small by lia. reflexivity.
Qed.

Lemma get_size_idempotent_witness :
  plain_tag "w" /\ _get_size 0x12345 "w" = Some 0x2345 /\ _get_size 0x2345 "w" = Some 0x2345 /\
  _get_size 0x1234 "h" = Some 0x12 /\ _get_size 0x12 "h" = Some 0.
Proof.
  assert (Hp : plain_tag "w") by (right; left; reflexivity).
  split; [exact Hp|]. split; [reflexivity|].
  split; [exact (proj1 (get_size_idempotent 0x12345 0x2345 "w") Hp eq_refl)|].
  split; [reflexivity|].
  exact (proj2 (get_size_idempotent 0x1234 0x12 "h") eq_refl).
Defined.

(** C6: for a byte [b] in [0, 255], [resolve(HIGHBYTE(b), 'h') = b]. *)
Theorem highbyte_roundtrip (b : Z) : 0 <= b <= 255 -> _get_size (HIGHBYTE b) "h" = Some b.
Proof.
  intros Hb.
  rewrite get_size_high; unfold HIGHBYTE; f_equal.
  rewrite Z.shiftl_mul_pow2, Z.div_mul by lia.
  apply Z.mod_small; lia.
Qed.

Lemma highbyte_roundtrip_witness : 0 <= 0x22 <= 255 /\ _get_size (HIGHBYTE 0x22) "h" = Some 0x22.
Proof.
  split; [lia | apply highbyte_roundtrip; lia].
Defined.

(** ADD and SUB once both tags resolve. *)
Lemma add_sub_resolved (a b x y : Z) (t1 t2 : ascii) (rest : string) :
  _get_size a t1 = Some x ->
  _get_size b t2 = Some y ->
  ADD a b (String t1 (String t2 rest)) = Ok (_get_size (x + y) t1) /\
  SUB a b (String t1 (String t2 rest)) = Ok (_get_size (x - y) t1).
Proof.
  intros Ha Hb.
  unfold ADD, SUB, _parse2; cbn [str_at String.get bind].
  rewrite Ha, Hb; split; reflexivity.
Qed.

(** C7 (counterexample): with tag [h], [a = 0x100] and [b = 0],
    [ADD(a, b, "hh") = 0] and [SUB(0, b, "hh") = 0], whose [h] resolution
    is 0 while [resolve(a, 'h') = 1]. *)
Lemma add_sub_high_fails :
  ADD 0x100 0 "hh" = Ok (Some 0) /\ SUB 0 0 "hh" = Ok (Some 0) /\
  _get_size 0 "h" = Some 0 /\ _get_size 0x100 "h" = Some 1.
Proof.
  repeat split; reflexivity.
Qed.

(** C7 (amended): for the tags [l], [w], [d] and [q] used in both
    positions, [resolve(SUB(ADD(a, b, spec), b, spec), w) = resolve(a, w)]
    for all integers [a] and [b]; for [h] the left side is always 0. *)
Theorem sub_add_inverse (a b : Z) (w : ascii) :
  (plain_tag w -> exists c d,
     ADD a b (String w (String w EmptyString)) = Ok (Some c) /\
     SUB c b (String w (String w EmptyString)) = Ok (Some d) /\
     _get_size d w = _get_size a w) /\
  (exists c d,
     ADD a b "hh" = Ok (Some c) /\ SUB c b "hh" = Ok (Some d) /\
     _get_size d "h" = Some 0).
Proof.
  split.
  - intros Hp.
    assert (Hres : forall v, _get_size v w = Some (v mod 2^(match tag_bits w with Some n => n | None => 0 end))).
    { intros v. destruct (get_size_plain v w Hp) as (n & Hb & Hv). rewrite Hb. exact Hv. }
    set (m := 2^(match tag_bits w with Some n => n | None => 0 end)) in Hres.
    assert (Hm : m <> 0).
    { subst m. destruct Hp as [-> | [-> | [-> | ->]]]; cbn; lia. }
    set (x := a mod m). set (y := b mod m).
    exists ((x + y) mod m), ((((x + y) mod m) mod m - y) mod m).
    destruct (add_sub_resolved a b x y w w "" (Hres a) (Hres b)) as [Hadd _].
    destruct (add_sub_resolved ((x + y) mod m) b (((x + y) mod m) mod m) y w w ""
                (Hres _) (Hres b)) as [_ Hsub].
    split; [rewrite Hadd, Hres; reflexivity|].
    split; [rewrite Hsub, Hres; reflexivity|].
    rewrite !Hres; f_equal.
    rewrite Z.mod_mod, Z.mod_mod, Zminus_mod_idemp_l by exact Hm.
    replace (x + y - y) with x by ring.
    subst x. rewrite Z.mod_mod by exact Hm. reflexivity.
  - set (x := (a / 2^8) mod 2^8). set (y := (b / 2^8) mod 2^8).
    set (c := ((x + y) / 2^8) mod 2^8).
    set (d := (((c / 2^8) mod 2^8 - y) / 2^8) mod 2^8).
    exists c, d.
    destruct (add_sub_resolved a b x y "h" "h" "" (get_size_high a) (get_size_high b)) as [Hadd _].
    destruct (add_sub_resolved c b ((c / 2^8) mod 2^8) y "h" "h" ""
                (get_size_high c) (get_size_high b)) as [_ Hsub].
    split; [rewrite Hadd, get_size_high; reflexivity|].
    split; [rewrite Hsub, get_size_high; reflexivity|].
    assert (0 <= d < 2^8) by (apply Z.mod_pos_bound; lia).
    rewrite get_size_high, (Z.div_small d) by lia. reflexivity.
Qed.

Lemma sub_add_inverse_witness :
  plain_tag "d" /\
  (exists c d, ADD 0xFFFFFFFF 5 "dd" = Ok (Some c) /\ SUB c 5 "dd" = Ok (Some d) /\
               _get_size d "d" = _get_size 0xFFFFFFFF "d").
Proof.
  assert (Hp : plain_tag "d") by (right; right; left; reflexivity).
  split; [exact Hp|].
  exact (proj1 (sub_add_inverse 0xFFFFFFFF 5 "d") Hp).
Defined.

(** C8: once both operands resolve and the resolved rotate amount [n2]
    lies in [0, 8], ROL yields [((n1 << n2) | (n1 >> (8 - n2))) & 0xFF]
    and ROR [((n1 >> n2) | (n1 << (8 - n2))) & 0xFF], truncated with the
    first tag: the rotation window is 8 bits for every tag. *)
Theorem rotate_window (a b n1 n2 : Z) (t1 t2 : ascii) (rest : string) :
  _get_size a t1 = Some n1 ->
  _get_size b t2 = Some n2 ->
  0 <= n2 <= 8 ->
  ROL a b (String t1 (String t2 rest)) =
    Ok (_get_size (Z.land (Z.lor (Z.shiftl n1 n2) (Z.shiftr n1 (8 - n2))) 0xFF) t1) /\
  ROR a b (String t1 (String t2 rest)) =
    Ok (_get_size (Z.land (Z.lor (Z.shiftr n1 n2) (Z.shiftl n1 (8 - n2))) 0xFF) t1).
Proof.
  intros Ha Hb Hn.
  assert (H1 : (n2 <? 0) = false) by (apply Z.ltb_ge; lia).
  assert (H2 : (8 - n2 <? 0) = false) by (apply Z.ltb_ge; lia).
  unfold ROL, ROR, _parse2; cbn [str_at String.get bind].
  rewrite Ha, Hb; cbn - [_get_size Z.sub Z.shiftl Z.shiftr Z.lor Z.land].
  rewrite H1, H2. split; reflexivity.
Qed.

Lemma rotate_window_witness :
  ROL 0x81 1 "dl" = Ok (_get_size (Z.land (Z.lor (Z.shiftl 0x81 1) (Z.shiftr 0x81 (8 - 1))) 0xFF) "d") /\
  ROL 0x81 1 "dl" = Ok (Some 0x03).
Proof.
  split; [|reflexivity].
  exact (proj1 (rotate_window 0x81 1 0x81 1 "d" "l" "" eq_refl eq_refl ltac:(lia))).
Defined.

(** Every successful operation ends with [_get_size temp size[0]]. *)
Lemma run_op_truncated (o : operation) (a b r : Z) (t1 : ascii) (rest : string) :
  run_op o a b (String t1 rest) = Ok (Some r) -> exists v, _get_size v t1 = Some r.
Proof.
  intros H.
  destruct o; cbn [run_op] in H;
    unfold XOR, OR, AND, ROL, ROR, SHR, SHL, INC, DEC, NEG, NOT, ADD, SUB,
      _parse1, _parse2 in H;
    cbn [str_at String.get] in H;
    repeat (cbn [bind] in H;
      match type of H with
      | context [bind ?m _] => let E := fresh "E" in destruct m eqn:E; try discriminate H
      | context [match ?p with pair _ _ => _ end] => destruct p
      end);
    injection H as H; eexists; exact H.
Qed.

(** C9: whenever an operation of the catalogue returns a value and its
    first tag is recognized, the value lies in [0, 2^bits) for that tag
    (8 bits for [l] and [h], 16 for [w], 32 for [d], 64 for [q]). *)
Theorem op_result_range (o : operation) (a b r n : Z) (t1 : ascii) (rest : string) :
  tag_bits t1 = Some n ->
  run_op o a b (String t1 rest) = Ok (Some r) ->
  0 <= r < 2^n.
Proof.
  intros Hb Hr.
  destruct (run_op_truncated o a b r t1 rest Hr) as [v Hv].
  exact (get_size_range v r n t1 Hb Hv).
Qed.

Lemma op_result_range_witness :
  run_op OpNEG 1 0 "l" = Ok (Some 0xFF) /\ 0 <= 0xFF < 2^8.
Proof.
  split; [reflexivity|].
  exact (op_result_range OpNEG 1 0 0xFF 8 "l" "" eq_refl eq_refl).
Defined.

(** C10: [HIGHBYTE(v)] is [v << 8] with no masking, so the [h] round trip
    gives [v & 0xFF], which differs from [v] as soon as [v >= 256]. *)
Theorem highbyte_unmasked (v : Z) :
  HIGHBYTE v = Z.shiftl v 8 /\
  _get_size (HIGHBYTE v) "h" = Some (Z.land v 0xFF) /\
  (256 <= v -> _get_size (HIGHBYTE v) "h" <> Some v).
Proof.
  assert (Hl : Z.land v 0xFF = v mod 2^8).
  { change 0xFF with (Z.ones 8); apply Z.land_ones; lia. }
  assert (Hh : _get_size (HIGHBYTE v) "h" = Some (Z.land v 0xFF)).
  { rewrite get_size_high, Hl; unfold HIGHBYTE; f_equal.
    rewrite Z.shiftl_mul_pow2, Z.div_mul by lia. reflexivity. }
  split; [reflexivity|]. split; [exact Hh|].
  intros Hv. rewrite Hh, Hl. intros Heq; injection Heq as Heq.
  pose proof (Z.mod_pos_bound v (2^8) ltac:(lia)). lia.
Qed.

Lemma highbyte_unmasked_witness :
  256 <= 0x122 /\ _get_size (HIGHBYTE 0x122) "h" = Some 0x22 /\
  _get_size (HIGHBYTE 0x122) "h" <> Some 0x122.
Proof.
  split; [lia|]. split; [reflexivity|].
  exact (proj2 (proj2 (highbyte_unmasked 0x122)) ltac:(lia)).
Defined.

(** ** Further properties of the operations *)

Lemma tag_cases (t : ascii) (n : Z) :
  tag_bits t = Some n -> t = "h"%char \/ plain_tag t.
Proof.
  unfold tag_bits.
  destruct (Ascii.eqb_spec t "l"); [right; left; assumption|].
  destruct (Ascii.eqb_spec t "h"); [left; assumption|].
  destruct (Ascii.eqb_spec t "w"); [right; right; left; assumption|].
  destruct (Ascii.eqb_spec t "d"); [right; right; right; left; assumption|].
  destruct (Ascii.eqb_spec t "q"); [right; right; right; right; assumption|].
  discriminate.
Qed.

Lemma plain_modulus (t : ascii) :
  plain_tag t -> exists n, 8 <= n /\ tag_bits t = Some n /\
    forall v, _get_size v t = Some (v mod 2^n).
Proof.
  intros Hp. destruct (get_size_plain 0 t Hp) as (n & Hb & _).
  exists n. split; [|split; [exact Hb|]].
  - destruct Hp as [-> | [-> | [-> | ->]]]; simpl in Hb; injection Hb as <-; lia.
  - intros v. destruct (get_size_plain v t Hp) as (n' & Hb' & Hv).
    rewrite Hb in Hb'; injection Hb' as <-. exact Hv.
Qed.

Lemma plain_mask (t : ascii) :
  plain_tag t -> forall v, _get_size v t = Some (Z.land v (tag_mask t)).
Proof.
  intros [-> | [-> | [-> | ->]]] v; reflexivity.
Qed.

Lemma unary_resolved (a x : Z) (t : ascii) (rest : string) :
  _get_size a t = Some x ->
  INC a (String t rest) = Ok (_get_size (x + 1) t) /\
  DEC a (String t rest) = Ok (_get_size (x - 1) t) /\
  NEG a (String t rest) = Ok (_get_size (Z.lnot x + 1) t) /\
  NOT a (String t rest) = Ok (_get_size (Z.lnot x) t).
Proof.
  intros Ha.
  unfold INC, DEC, NEG, NOT, _parse1; cbn [str_at String.get bind].
  rewrite Ha; repeat split.
Qed.

Lemma binops_resolved (a b x y : Z) (t1 t2 : ascii) (rest : string) :
  _get_size a t1 = Some x ->
  _get_size b t2 = Some y ->
  XOR a b (String t1 (String t2 rest)) = Ok (_get_size (Z.lxor x y) t1) /\
  OR a b (String t1 (String t2 rest)) = Ok (_get_size (Z.lor x y) t1) /\
  AND a b (String t1 (String t2 rest)) = Ok (_get_size (Z.land x y) t1) /\
  SHR a b (String t1 (String t2 rest)) = Ok (_get_size (Z.shiftr x y) t1) /\
  SHL a b (String t1 (String t2 rest)) = Ok (_get_size (Z.shiftl x y) t1).
Proof.
  intros Ha Hb.
  assert (Hy : (y <? 0) = false)
    by (apply Z.ltb_ge; exact (get_size_nonneg b y t2 Hb)).
  unfold XOR, OR, AND, SHR, SHL, _parse2; cbn [str_at String.get bind].
  rewrite Ha, Hb; cbn. rewrite Hy. repeat split.
Qed.

Lemma get_size_small (v r : Z) (t : ascii) :
  0 <= v < 256 -> _get_size v t = Some r -> 0 <= r < 256.
Proof.
  intros Hv Hg.
  destruct (tag_bits t) as [n|] eqn:Hb;
    [| rewrite (tag_bits_none v t Hb) in Hg; discriminate].
  destruct (tag_cases t n Hb) as [-> | [-> | [-> | [-> | ->]]]];
    [rewrite get_size_high in Hg | rewrite get_size_low in Hg | rewrite get_size_word in Hg
    | rewrite get_size_dword in Hg | rewrite get_size_qword in Hg];
    injection Hg as <-.
  - rewrite Z.div_small by lia. cbn. lia.
  - apply Z.mod_pos_bound; lia.
  - rewrite Z.mod_small by lia. lia.
  - rewrite Z.mod_small by lia. lia.
  - rewrite Z.mod_small by lia. lia.
Qed.

Lemma all_below_spec (k : nat) (f : Z -> bool) :
  all_below k f = true -> forall x, 0 <= x < Z.of_nat k -> f x = true.
Proof.
  unfold all_below. rewrite List.forallb_forall. intros H x Hx.
  apply H. apply List.in_map_iff. exists (Z.to_nat x). split.
  - apply Z2Nat.id; lia.
  - apply List.in_seq. lia.
Qed.

Lemma rotate_inverse_table : all_below 9 (fun n => all_below 256 (fun x => rotate_inverse_at x n)) = true.
Proof. vm_compute. reflexivity. Qed.

(** Split a hypothesis [m1 >>= ... = v] into one equation per step. *)
Ltac split_binds H :=
  repeat (cbn [bind] in H;
    match type of H with
    | context [bind ?m _] => let E := fresh "E" in destruct m eqn:E; try discriminate H
    | context [match ?p with pair _ _ => _ end] => destruct p
    end).

Lemma rotate_low_byte (v n : Z) :
  ROL v n "ll" = ROL (Z.land v 0xFF) n "ll" /\ ROR v n "ll" = ROR (Z.land v 0xFF) n "ll".
Proof.
  assert (Hl : _get_size v "l" = _get_size (Z.land v 0xFF) "l").
  { unfold _get_size; cbn. f_equal. rewrite <- Z.land_assoc, Z.land_diag. reflexivity. }
  unfold ROL, ROR, _parse2; cbn [str_at String.get bind].
  rewrite Hl. split; reflexivity.
Qed.

(** X1: a specifier that is too short raises IndexError: every operation
    and [FORMAT] on the empty specifier, and every binary operation on a
    one-character specifier. *)
Theorem short_specifier_raises (o : operation) (a b : Z) (t : ascii) :
  run_op o a b "" = Raise IndexError /\
  FORMAT a "" = Raise IndexError /\
  (is_binary o = true -> run_op o a b (String t "") = Raise IndexError).
Proof.
  split; [destruct o; reflexivity|].
  split; [reflexivity|].
  intros Hbin; destruct o; try discriminate Hbin; reflexivity.
Qed.

Lemma short_specifier_raises_witness :
  is_binary OpROL = true /\ run_op OpROL 1 2 "l" = Raise IndexError.
Proof.
  split; [reflexivity|].
  exact (proj2 (proj2 (short_specifier_raises OpROL 1 2 "l")) eq_refl).
Defined.

(** X2: a binary operation reads only the first two characters of the
    specifier and a unary one only the first: the rest is ignored. *)
Theorem specifier_tail_ignored (o : operation) (a b : Z) (t1 t2 : ascii) (rest : string) :
  (is_binary o = true ->
     run_op o a b (String t1 (String t2 rest)) = run_op o a b (String t1 (String t2 ""))) /\
  (is_binary o = false ->
     run_op o a b (String t1 rest) = run_op o a b (String t1 "")).
Proof.
  split; intros Hk; destruct o; try discriminate Hk; reflexivity.
Qed.

Lemma specifier_tail_ignored_witness :
  is_binary OpINC = false /\ run_op OpINC 0xFF 0 "lq" = run_op OpINC 0xFF 0 "l".
Proof.
  split; [reflexivity|].
  exact (proj2 (specifier_tail_ignored OpINC 0xFF 0 "l" "q" "q") eq_refl).
Defined.

(** X3: ROL and ROR raise ValueError when the resolved rotate amount is
    above 8, since [8 - op2] is then a negative shift count. *)
Theorem rotate_count_too_large (a b n1 n2 : Z) (t1 t2 : ascii) (rest : string) :
  _get_size a t1 = Some n1 ->
  _get_size b t2 = Some n2 ->
  8 < n2 ->
  ROL a b (String t1 (String t2 rest)) = Raise ValueError /\
  ROR a b (String t1 (String t2 rest)) = Raise ValueError.
Proof.
  intros Ha Hb Hn.
  assert (H1 : (n2 <? 0) = false) by (apply Z.ltb_ge; lia).
  assert (H2 : (8 - n2 <? 0) = true) by (apply Z.ltb_lt; lia).
  unfold ROL, ROR, _parse2; cbn [str_at String.get bind].
  rewrite Ha, Hb; cbn - [Z.sub Z.shiftl Z.shiftr].
  rewrite H1, H2. split; reflexivity.
Qed.

Lemma rotate_count_too_large_witness :
  ROL 1 9 "dd" = Raise ValueError /\ ROR 1 9 "dd" = Raise ValueError.
Proof.
  exact (rotate_count_too_large 1 9 1 9 "d" "d" "" eq_refl eq_refl ltac:(lia)).
Defined.

(** X4: whatever the width tags, a value returned by ROL or ROR is a byte:
    bits above bit 7 of a word, dword or qword operand are lost. *)
Theorem rotate_result_byte (a b r : Z) (t1 : ascii) (rest : string) :
  ROL a b (String t1 rest) = Ok (Some r) \/ ROR a b (String t1 rest) = Ok (Some r) ->
  0 <= r < 256.
Proof.
  intros [H | H];
    unfold ROL, ROR, _parse2 in H; cbn [str_at String.get] in H; split_binds H;
    injection H as H;
    match goal with
    | E : py_and (Some ?o) (Some 0xFF) = Ok ?tmp |- _ =>
        cbn in E; injection E as E;
        apply (get_size_small tmp r t1); [| exact H];
        rewrite <- E; change 0xFF with (Z.ones 8); rewrite Z.land_ones by lia;
        apply Z.mod_pos_bound; lia
    end.
Qed.

Lemma rotate_result_byte_witness :
  ROL 0x1FF 1 "dd" = Ok (Some 0xFF) /\ 0 <= 0xFF < 256.
Proof.
  split; [reflexivity|].
  exact (rotate_result_byte 0x1FF 1 0xFF "d" "d" (or_introl eq_refl)).
Defined.

(** X5: with specifier ["ll"] and a rotate amount [n] in [0, 8], ROR
    undoes ROL and ROL undoes ROR, giving back the low byte of [v]. *)
Theorem rotate_low_inverse (v n : Z) :
  0 <= n <= 8 ->
  exists l r,
    ROL v n "ll" = Ok (Some l) /\ ROR l n "ll" = Ok (Some (Z.land v 0xFF)) /\
    ROR v n "ll" = Ok (Some r) /\ ROL r n "ll" = Ok (Some (Z.land v 0xFF)).
Proof.
  intros Hn.
  destruct (rotate_low_byte v n) as [-> ->].
  set (x := Z.land v 0xFF).
  assert (Hx : 0 <= x < 256).
  { subst x. change 0xFF with (Z.ones 8); rewrite Z.land_ones by lia.
    apply Z.mod_pos_bound; lia. }
  assert (Hf : rotate_inverse_at x n = true).
  { apply (all_below_spec 256 (fun y => rotate_inverse_at y n)); [| cbn; lia].
    apply (all_below_spec 9 (fun m => all_below 256 (fun y => rotate_inverse_at y m)));
      [exact rotate_inverse_table | cbn; lia]. }
  unfold rotate_inverse_at in Hf.
  destruct (ROL x n "ll") as [[l|]|]; try discriminate Hf.
  destruct (ROR x n "ll") as [[r|]|]; try discriminate Hf.
  exists l, r.
  destruct (ROR l n "ll") as [[x1|]|]; try discriminate Hf.
  destruct (ROL r n "ll") as [[x2|]|]; try discriminate Hf.
  apply andb_prop in Hf as [H1 H2].
  apply Z.eqb_eq in H1, H2. subst x1 x2.
  repeat split.
Qed.

Lemma rotate_low_inverse_witness :
  exists l r,
    ROL 0x1A5 3 "ll" = Ok (Some l) /\ ROR l 3 "ll" = Ok (Some (Z.land 0x1A5 0xFF)) /\
    ROR 0x1A5 3 "ll" = Ok (Some r) /\ ROL r 3 "ll" = Ok (Some (Z.land 0x1A5 0xFF)).
Proof.
  exact (rotate_low_inverse 0x1A5 3 ltac:(lia)).
Defined.

Lemma unary_plain_mod_aux (a n : Z) (t : ascii) (rest : string) :
  plain_tag t -> tag_bits t = Some n ->
  INC a (String t rest) = Ok (Some ((a + 1) mod 2^n)) /\
  DEC a (String t rest) = Ok (Some ((a - 1) mod 2^n)) /\
  NEG a (String t rest) = Ok (Some ((- a) mod 2^n)) /\
  NOT a (String t rest) = Ok (Some ((- a - 1) mod 2^n)).
Proof.
  intros Hp Hb.
  destruct (plain_modulus t Hp) as (n' & H8 & Hb' & Hm).
  rewrite Hb in Hb'; injection Hb' as <-.
  assert (Hnz : 2^n <> 0) by (apply Z.pow_nonzero; lia).
  destruct (unary_resolved a (a mod 2^n) t rest (Hm a)) as (Hi & Hd & Hn & Ho).
  rewrite Hi, Hd, Hn, Ho, !Hm.
  split; [|split; [|split]]; do 2 f_equal.
  - apply Zplus_mod_idemp_l.
  - apply Zminus_mod_idemp_l.
  - rewrite Z.succ_lnot.
    replace (- (a mod 2^n)) with (0 - a mod 2^n) by ring.
    rewrite Zminus_mod_idemp_r. f_equal; ring.
  - rewrite Z.lnot_eq_pred_opp.
    replace (- (a mod 2^n) - 1) with (-1 - a mod 2^n) by ring.
    rewrite Zminus_mod_idemp_r. f_equal; ring.
Qed.

(** X6: with a tag [l], [w], [d] or [q] of [n] bits, INC, DEC, NEG and NOT
    compute [v + 1], [v - 1], [-v] and [-v - 1] modulo [2^n]. *)
Theorem unary_plain_mod (a n : Z) (t : ascii) (rest : string) :
  plain_tag t -> tag_bits t = Some n ->
  INC a (String t rest) = Ok (Some ((a + 1) mod 2^n)) /\
  DEC a (String t rest) = Ok (Some ((a - 1) mod 2^n)) /\
  NEG a (String t rest) = Ok (Some ((- a) mod 2^n)) /\
  NOT a (String t rest) = Ok (Some ((- a - 1) mod 2^n)).
Proof.
  apply unary_plain_mod_aux.
Qed.

Lemma unary_plain_mod_witness :
  plain_tag "w" /\ NEG 5 "w" = Ok (Some ((- 5) mod 2^16)) /\ NEG 5 "w" = Ok (Some 0xFFFB).
Proof.
  assert (Hp : plain_tag "w") by (right; left; reflexivity).
  split; [exact Hp|]. split; [|reflexivity].
  exact (proj1 (proj2 (proj2 (unary_plain_mod 5 16 "w" "" Hp eq_refl)))).
Defined.

(** X7: with a tag [l], [w], [d] or [q], DEC undoes INC and INC undoes
    DEC, giving back the resolved operand. *)
Theorem inc_dec_inverse (a : Z) (t : ascii) (rest : string) :
  plain_tag t ->
  exists r1 r2,
    INC a (String t rest) = Ok (Some r1) /\ DEC r1 (String t rest) = Ok (_get_size a t) /\
    DEC a (String t rest) = Ok (Some r2) /\ INC r2 (String t rest) = Ok (_get_size a t).
Proof.
  intros Hp.
  destruct (plain_modulus t Hp) as (n & H8 & Hb & Hm).
  assert (Hnz : 2^n <> 0) by (apply Z.pow_nonzero; lia).
  destruct (unary_plain_mod_aux a n t rest Hp Hb) as (Hi & Hd & _).
  destruct (unary_plain_mod_aux ((a + 1) mod 2^n) n t rest Hp Hb) as (_ & Hd' & _).
  destruct (unary_plain_mod_aux ((a - 1) mod 2^n) n t rest Hp Hb) as (Hi' & _).
  exists ((a + 1) mod 2^n), ((a - 1) mod 2^n).
  rewrite Hi, Hd, Hd', Hi', Hm.
  rewrite Zminus_mod_idemp_l, Zplus_mod_idemp_l.
  replace (a + 1 - 1) with a by ring. replace (a - 1 + 1) with a by ring.
  repeat split.
Qed.

Lemma inc_dec_inverse_witness :
  plain_tag "l" /\
  exists r1 r2,
    INC 0xFF "l" = Ok (Some r1) /\ DEC r1 "l" = Ok (_get_size 0xFF "l") /\
    DEC 0xFF "l" = Ok (Some r2) /\ INC r2 "l" = Ok (_get_size 0xFF "l").
Proof.
  assert (Hp : plain_tag "l") by (left; reflexivity).
  split; [exact Hp|].
  exact (inc_dec_inverse 0xFF "l" "" Hp).
Defined.

(** X8: with a tag [l], [w], [d] or [q], NOT applied twice and NEG applied
    twice both give back the resolved operand. *)
Theorem not_neg_involutive (a : Z) (t : ascii) (rest : string) :
  plain_tag t ->
  exists r1 r2,
    NOT a (String t rest) = Ok (Some r1) /\ NOT r1 (String t rest) = Ok (_get_size a t) /\
    NEG a (String t rest) = Ok (Some r2) /\ NEG r2 (String t rest) = Ok (_get_size a t).
Proof.
  intros Hp.
  destruct (plain_modulus t Hp) as (n & H8 & Hb & Hm).
  assert (Hnz : 2^n <> 0) by (apply Z.pow_nonzero; lia).
  destruct (unary_plain_mod_aux a n t rest Hp Hb) as (_ & _ & Hn & Ho).
  destruct (unary_plain_mod_aux ((- a - 1) mod 2^n) n t rest Hp Hb) as (_ & _ & _ & Ho').
  destruct (unary_plain_mod_aux ((- a) mod 2^n) n t rest Hp Hb) as (_ & _ & Hn' & _).
  exists ((- a - 1) mod 2^n), ((- a) mod 2^n).
  rewrite Ho, Hn, Ho', Hn', Hm.
  replace (- ((- a - 1) mod 2^n) - 1) with (-1 - (- a - 1) mod 2^n) by ring.
  replace (- ((- a) mod 2^n)) with (0 - (- a) mod 2^n) by ring.
  rewrite !Zminus_mod_idemp_r.
  replace (-1 - (- a - 1)) with a by ring. replace (0 - - a) with a by ring.
  repeat split.
Qed.

Lemma not_neg_involutive_witness :
  plain_tag "d" /\
  exists r1 r2,
    NOT 0x12345678 "d" = Ok (Some r1) /\ NOT r1 "d" = Ok (_get_size 0x12345678 "d") /\
    NEG 0x12345678 "d" = Ok (Some r2) /\ NEG r2 "d" = Ok (_get_size 0x12345678 "d").
Proof.
  assert (Hp : plain_tag "d") by (right; right; left; reflexivity).
  split; [exact Hp|].
  exact (not_neg_involutive 0x12345678 "d" "" Hp).
Defined.

(** X9: with tag [h], the unary operations see only the carry or borrow
    out of the high byte [x]: NOT always returns [0xFF], NEG returns 0 when
    [x = 0] and [0xFF] otherwise, INC returns 1 when [x = 0xFF] and 0
    otherwise, and DEC returns [0xFF] when [x = 0] and 0 otherwise. *)
Theorem high_unary_results (a : Z) (rest : string) :
  let x := (a / 2^8) mod 2^8 in
  INC a (String "h" rest) = Ok (Some (if x =? 0xFF then 1 else 0)) /\
  DEC a (String "h" rest) = Ok (Some (if x =? 0 then 0xFF else 0)) /\
  NEG a (String "h" rest) = Ok (Some (if x =? 0 then 0 else 0xFF)) /\
  NOT a (String "h" rest) = Ok (Some 0xFF).
Proof.
  intros x.
  assert (Hx : 0 <= x < 256) by (apply Z.mod_pos_bound; lia).
  destruct (unary_resolved a x "h" rest (get_size_high a)) as (Hi & Hd & Hn & Ho).
  rewrite Hi, Hd, Hn, Ho, !get_size_high.
  rewrite Z.succ_lnot, Z.lnot_eq_pred_opp.
  change (2^8) with 256.
  clearbody x.
  split; [|split; [|split]]; do 2 f_equal.
  - destruct (Z.eqb_spec x 0xFF) as [-> | Hne]; [reflexivity|].
    rewrite Z.div_small by lia. reflexivity.
  - destruct (Z.eqb_spec x 0) as [-> | Hne]; [reflexivity|].
    rewrite Z.div_small by lia. reflexivity.
  - destruct (Z.eqb_spec x 0) as [-> | Hne]; [reflexivity|].
    rewrite <- (Z.div_unique (- x) 256 (-1) (256 - x)) by lia. reflexivity.
  - rewrite <- (Z.div_unique (- x - 1) 256 (-1) (255 - x)) by lia. reflexivity.
Qed.

(** X10: with the same tag [l], [w], [d] or [q] in both positions,
    XOR-ing twice with the same key gives back the resolved operand. *)
Theorem xor_roundtrip (a b : Z) (t : ascii) :
  plain_tag t ->
  exists c,
    XOR a b (String t (String t "")) = Ok (Some c) /\
    XOR c b (String t (String t "")) = Ok (_get_size a t).
Proof.
  intros Hp.
  pose proof (plain_mask t Hp) as Hm.
  set (M := tag_mask t) in Hm.
  set (c := Z.land (Z.lxor (Z.land a M) (Z.land b M)) M).
  exists c.
  destruct (binops_resolved a b _ _ t t "" (Hm a) (Hm b)) as [Hx _].
  destruct (binops_resolved c b _ _ t t "" (Hm c) (Hm b)) as [Hx' _].
  rewrite Hx, Hx', !Hm. split; [reflexivity|].
  do 2 f_equal. subst c.
  apply Z.bits_inj'; intros i Hi.
  repeat rewrite ?Z.land_spec, ?Z.lxor_spec.
  destruct (Z.testbit a i), (Z.testbit b i), (Z.testbit M i); reflexivity.
Qed.

Lemma xor_roundtrip_witness :
  plain_tag "q" /\
  exists c, XOR 0x1122334455667788 0xDEADBEEF "qq" = Ok (Some c) /\
            XOR c 0xDEADBEEF "qq" = Ok (_get_size 0x1122334455667788 "q").
Proof.
  assert (Hp : plain_tag "q") by (right; right; right; reflexivity).
  split; [exact Hp|].
  exact (xor_roundtrip 0x1122334455667788 0xDEADBEEF "q" Hp).
Defined.

Lemma get_size_recognized (v n : Z) (t : ascii) :
  tag_bits t = Some n -> exists x, _get_size v t = Some x.
Proof.
  intros Hb.
  destruct (tag_cases t n Hb) as [-> | [-> | [-> | [-> | ->]]]]; eexists; reflexivity.
Qed.

Lemma get_size_zero (n : Z) (t : ascii) : tag_bits t = Some n -> _get_size 0 t = Some 0.
Proof.
  intros Hb.
  destruct (tag_cases t n Hb) as [-> | [-> | [-> | [-> | ->]]]]; reflexivity.
Qed.

(** X11: with the same recognized tag in both positions (including [h]),
    XOR and SUB of a value with itself give 0. *)
Theorem self_cancel (a n : Z) (t : ascii) (rest : string) :
  tag_bits t = Some n ->
  XOR a a (String t (String t rest)) = Ok (Some 0) /\
  SUB a a (String t (String t rest)) = Ok (Some 0).
Proof.
  intros Hb.
  destruct (get_size_recognized a n t Hb) as [x Hx].
  destruct (binops_resolved a a x x t t rest Hx Hx) as [Hxor _].
  destruct (add_sub_resolved a a x x t t rest Hx Hx) as [_ Hsub].
  rewrite Hxor, Hsub, Z.lxor_nilpotent, Z.sub_diag, (get_size_zero n t Hb).
  split; reflexivity.
Qed.

Lemma self_cancel_witness :
  XOR 0xABCD 0xABCD "hh" = Ok (Some 0) /\ SUB 0xABCD 0xABCD "hh" = Ok (Some 0).
Proof.
  exact (self_cancel 0xABCD 8 "h" "" eq_refl).
Defined.

(** X12: when both positions carry the same tag, XOR, OR, AND and ADD do
    not depend on the order of their operands. *)
Theorem binop_commutative_same_tag (a b : Z) (t : ascii) (rest : string) :
  XOR a b (String t (String t rest)) = XOR b a (String t (String t rest)) /\
  OR a b (String t (String t rest)) = OR b a (String t (String t rest)) /\
  AND a b (String t (String t rest)) = AND b a (String t (String t rest)) /\
  ADD a b (String t (String t rest)) = ADD b a (String t (String t rest)).
Proof.
  unfold XOR, OR, AND, ADD, _parse2; cbn [str_at String.get bind].
  unfold py_xor, py_or, py_and, py_add, py_binop.
  destruct (_get_size a t) as [x|], (_get_size b t) as [y|]; cbn [bind];
    try (repeat split; reflexivity).
  rewrite (Z.lxor_comm x y), (Z.lor_comm x y), (Z.land_comm x y), (Z.add_comm x y).
  repeat split.
Qed.

(** X13: with the same tag [l], [w], [d] or [q] of [n] bits in both
    positions, ADD and SUB are addition and subtraction modulo [2^n]. *)
Theorem add_sub_plain_mod (a b n : Z) (t : ascii) (rest : string) :
  plain_tag t -> tag_bits t = Some n ->
  ADD a b (String t (String t rest)) = Ok (Some ((a + b) mod 2^n)) /\
  SUB a b (String t (String t rest)) = Ok (Some ((a - b) mod 2^n)).
Proof.
  intros Hp Hb.
  destruct (plain_modulus t Hp) as (n' & H8 & Hb' & Hm).
  rewrite Hb in Hb'; injection Hb' as <-.
  destruct (add_sub_resolved a b _ _ t t rest (Hm a) (Hm b)) as [Ha Hs].
  rewrite Ha, Hs, !Hm.
  rewrite Zplus_mod_idemp_l, Zplus_mod_idemp_r, Zminus_mod_idemp_l, Zminus_mod_idemp_r.
  split; reflexivity.
Qed.

Lemma add_sub_plain_mod_witness :
  plain_tag "w" /\ SUB 1 2 "ww" = Ok (Some ((1 - 2) mod 2^16)) /\ SUB 1 2 "ww" = Ok (Some 0xFFFF).
Proof.
  assert (Hp : plain_tag "w") by (right; left; reflexivity).
  split; [exact Hp|]. split; [|reflexivity].
  exact (proj2 (add_sub_plain_mod 1 2 16 "w" "" Hp eq_refl)).
Defined.

(** X14: adding a [HIGHBYTE] value with the default specifier ["dd"] is
    plain addition of [b * 2^8] modulo [2^32]: a carry out of bits 8-15
    runs on into bit 16 and above. *)
Theorem add_highbyte_dword (v b : Z) :
  ADD v (HIGHBYTE b) default_size = Ok (Some ((v + b * 2^8) mod 2^32)).
Proof.
  destruct (add_sub_resolved v (HIGHBYTE b) _ _ "d" "d" "" (get_size_dword v)
              (get_size_dword (HIGHBYTE b))) as [Ha _].
  unfold default_size. rewrite Ha, get_size_dword.
  rewrite Zplus_mod_idemp_l, Zplus_mod_idemp_r.
  unfold HIGHBYTE. rewrite Z.shiftl_mul_pow2 by lia. reflexivity.
Qed.

(** X15: with a first tag [l], [w], [d] or [q] of [n] bits, SHL and SHR
    give 0 once the resolved shift amount is at least [n]. *)
Theorem shift_past_width (a b k n : Z) (t1 t2 : ascii) (rest : string) :
  plain_tag t1 -> tag_bits t1 = Some n ->
  _get_size b t2 = Some k -> n <= k ->
  SHL a b (String t1 (String t2 rest)) = Ok (Some 0) /\
  SHR a b (String t1 (String t2 rest)) = Ok (Some 0).
Proof.
  intros Hp Hb Hk Hnk.
  destruct (plain_modulus t1 Hp) as (n' & H8 & Hb' & Hm).
  rewrite Hb in Hb'; injection Hb' as <-.
  destruct (binops_resolved a b _ _ t1 t2 rest (Hm a) Hk) as (_ & _ & _ & Hr & Hl).
  assert (Hx : 0 <= a mod 2^n < 2^n) by (apply Z.mod_pos_bound; lia).
  assert (Hpow : 2^n <= 2^k) by (apply Z.pow_le_mono_r; lia).
  rewrite Hl, Hr, !Hm.
  assert (Hnz : 2^n <> 0) by lia.
  assert (E : 2^k = 2^(k - n) * 2^n) by (rewrite <- Z.pow_add_r by lia; f_equal; ring).
  rewrite Z.shiftl_mul_pow2, Z.shiftr_div_pow2 by lia.
  split.
  - rewrite E, Z.mul_assoc, Z.mod_mul by exact Hnz. reflexivity.
  - rewrite (Z.div_small (a mod 2^n)) by lia. reflexivity.
Qed.

Lemma shift_past_width_witness :
  plain_tag "d" /\ SHL 1 32 "dd" = Ok (Some 0) /\ SHR 0xFFFFFFFF 40 "dl" = Ok (Some 0).
Proof.
  assert (Hp : plain_tag "d") by (right; right; left; reflexivity).
  split; [exact Hp|]. split.
  - exact (proj1 (shift_past_width 1 32 32 32 "d" "d" "" Hp eq_refl eq_refl ltac:(lia))).
  - exact (proj2 (shift_past_width 0xFFFFFFFF 40 40 32 "d" "l" "" Hp eq_refl eq_refl ltac:(lia))).
Defined.
